(** * paggo-client-ts: the wire frames and the request discipline of [Client]

    A shallow embedding of [src/lib/client.ts].  The class [Client] owns one
    [net.Socket]; every public method is an [async] function that validates
    its arguments, builds a [Uint8Array] frame, hands it to [socket.write]
    and then waits for the next ['data'] event of the socket.

    Conventions of the embedding:
    - a byte is a [Z] in [0, 256); storing a number into a [Uint8Array]
      reduces it modulo 256 ([Uint8Array.to_uint8]);
    - a JavaScript string is the list of its UTF-16 code units (so [length]
      is [String.prototype.length] and [!!] is [charCodeAt]);
    - a thrown value is an [error]; a method is a function of the client
      state that returns its outcome together with the new state. *)

From Stdlib Require Import ZArith Lia String Ascii DecimalString.
From stdpp Require Import base list.

Abbreviation jsstring := (list Z).
Abbreviation bytes := (list Z).

(** The values a method can throw.  [KeyTooLarge] and [ValueTooLarge] stand
    for the two strings thrown by [validateKey] and [validateValue];
    [RangeError] is the exception of [TypedArray.prototype.set].  The other
    three are the lifecycle errors named by the specification. *)
Inductive error : Type :=
| KeyTooLarge
| ValueTooLarge
| RangeError
| ConnectionError
| NotConnected
| SessionClosed.

Inductive result (A : Type) : Type :=
| Ok (a : A)
| Err (e : error).
Arguments Ok {A} a.
Arguments Err {A} e.

(** ** Platform: typed arrays *)
Module Uint8Array.

(** Conversion of a stored number to an unsigned byte. *)
Definition to_uint8 (v : Z) : Z := (v mod 256)%Z.

(** [new Uint8Array(n)]: [n] zero bytes. *)
Definition new (n : nat) : bytes := replicate n 0%Z.

(** [buf[i] = v].  A store outside the array is ignored; a [NaN]
    (here [None], what [charCodeAt] gives outside the string) stores 0. *)
Definition store (buf : bytes) (i : nat) (v : option Z) : bytes :=
  <[ i := match v with Some c => to_uint8 c | None => 0%Z end ]> buf.

(** [target.set(source, offset)]: throws a [RangeError] when the source
    does not fit at [offset], otherwise overwrites
    [target[offset .. offset + source.length)]. *)
Definition set (target source : bytes) (offset : nat) : result bytes :=
  if length target <? offset + length source
  then Err RangeError
  else Ok (take offset target ++ source ++ drop (offset + length source) target).

(** [Uint8Array.from(data)]: a copy. *)
Definition from (data : bytes) : bytes := data.

End Uint8Array.

(** ** Platform: [TextEncoder.encode], UTF-8 of a UTF-16 string *)
Module TextEncoder.

Definition is_high_surrogate (c : Z) : bool := ((55296 <=? c) && (c <=? 56319))%Z.
Definition is_low_surrogate (c : Z) : bool := ((56320 <=? c) && (c <=? 57343))%Z.

(** UTF-8 bytes of one scalar value. *)
Definition utf8_of_code_point (cp : Z) : bytes :=
  if (cp <? 128)%Z then [cp]
  else if (cp <? 2048)%Z then
    [Z.lor 192 (Z.shiftr cp 6); Z.lor 128 (Z.land cp 63)]
  else if (cp <? 65536)%Z then
    [Z.lor 224 (Z.shiftr cp 12);
     Z.lor 128 (Z.land (Z.shiftr cp 6) 63);
     Z.lor 128 (Z.land cp 63)]
  else
    [Z.lor 240 (Z.shiftr cp 18);
     Z.lor 128 (Z.land (Z.shiftr cp 12) 63);
     Z.lor 128 (Z.land (Z.shiftr cp 6) 63);
     Z.lor 128 (Z.land cp 63)].

Definition replacement : Z := 65533.

(** A surrogate pair is one scalar value, a lone surrogate is replaced by
    U+FFFD, any other code unit is its own scalar value. *)
Fixpoint encode (s : jsstring) : bytes :=
  match s with
  | [] => []
  | c :: rest =>
      if is_high_surrogate c then
        match rest with
        | d :: rest' =>
            if is_low_surrogate d
            then utf8_of_code_point
                   (65536 + Z.shiftl (c - 55296) 10 + (d - 56320))%Z
                 ++ encode rest'
            else utf8_of_code_point replacement ++ encode rest
        | [] => utf8_of_code_point replacement
        end
      else if is_low_surrogate c then utf8_of_code_point replacement ++ encode rest
      else utf8_of_code_point c ++ encode rest
  end.

End TextEncoder.

(** A string literal of the source as a list of code units. *)
Definition js (s : string) : jsstring :=
  map (fun a => Z.of_nat (nat_of_ascii a)) (list_ascii_of_string s).

(** ** Protocol constants and collaborators outside the reviewed file

    [Commands] ([src/commands.ts]), [encodeNumberToUint8Array]
    ([src/lib/data/encoding.ts]) and [SerialResponse]
    ([src/lib/data/serial.ts]) are imported by [client.ts]; the command codes
    and the numeric codec are parameters of the model. *)
Record Commands : Type := {
  PING : Z;
  GET : Z;
  SET : Z;
  EXISTS : Z;
  DELETE : Z
}.

(** [new SerialResponse(res)]: the raw bytes, decoded later by the caller. *)
Record SerialResponse : Type := { raw : bytes }.

(** The argument of the constructor: every field may be left out. *)
Record ConnectionOptions : Type := {
  opt_host : option string;
  opt_port : option N;
  opt_maxKeySizeBytes : option nat;
  opt_maxValueSizeBytes : option nat
}.

(** [this.options] once the constructor has filled in the defaults. *)
Record Options : Type := {
  host : string;
  port : N;
  maxKeySizeBytes : nat;
  maxValueSizeBytes : nat
}.

(** Which method registered a [once('data', ...)] listener, that is, which
    continuation runs when the next chunk arrives. *)
Inductive Waiter : Type := WPing | WGet | WSet | WExists | WDelete.

(** What a method's promise resolves to. *)
Inductive Resolution : Type :=
| RBoolean (b : bool)
| RResponse (r : SerialResponse).

(** The socket as the client sees it: the lifecycle state reached through
    the client's [connect] and [destroy] calls, the buffers handed to
    [socket.write] in order, and the pending ['data'] listeners in the order
    they were registered.  [socket.write] reports a failure through the
    socket's events, not by throwing, so a write is recorded in any state. *)
Inductive SocketState : Type := Fresh | Connecting | Open | Destroyed.

Record Socket : Type := {
  state : SocketState;
  written : list bytes;
  waiters : list Waiter
}.

Module Client.

(** The fields of the class ([encoder] is stateless and is the module
    [TextEncoder]). *)
Record t : Type := {
  options : Options;
  socket : Socket
}.

(** A method body: it reads and updates [this] and either returns or
    throws. *)
Definition M (A : Type) : Type := t -> result A * t.

Definition ret {A} (a : A) : M A := fun c => (Ok a, c).
Definition throw {A} (e : error) : M A := fun c => (Err e, c).
Definition bind {A B} (m : M A) (k : A -> M B) : M B :=
  fun c => match m c with
           | (Ok a, c') => k a c'
           | (Err e, c') => (Err e, c')
           end.
Definition lift {A} (r : result A) : M A := fun c => (r, c).
(** [this.options.f!]: a field of the resolved options. *)
Definition read_option (f : Options -> nat) : M nat :=
  fun c => (Ok (f (options c)), c).

Declare Scope method_scope.
Delimit Scope method_scope with method.
Notation "x <~ m ;; k" := (bind m (fun x => k))
  (at level 100, m at next level, right associativity) : method_scope.
Notation "m ;; k" := (bind m (fun _ => k))
  (at level 100, right associativity) : method_scope.
Local Open Scope method_scope.

(** [this.socket.write(data)]. *)
Definition socket_write (data : bytes) : M unit :=
  fun c => (Ok tt,
            {| options := options c;
               socket := {| state := state (socket c);
                            written := written (socket c) ++ [data];
                            waiters := waiters (socket c) |} |}).

(** [new Promise(resolve => this.socket.once('data', ...))] followed by
    [await]: the listener is registered and the method suspends. *)
Definition socket_once_data (w : Waiter) : M Waiter :=
  fun c => (Ok w,
            {| options := options c;
               socket := {| state := state (socket c);
                            written := written (socket c);
                            waiters := waiters (socket c) ++ [w] |} |}).

Definition set_state (st : SocketState) (c : t) : t :=
  {| options := options c;
     socket := {| state := st;
                  written := written (socket c);
                  waiters := waiters (socket c) |} |}.

(** The constructor: the default argument when none is given, then one
    default per missing field; a fresh socket. *)
Definition default_options : ConnectionOptions :=
  {| opt_host := Some "localhost"%string;
     opt_port := Some 9055%N;
     opt_maxKeySizeBytes := Some 32;
     opt_maxValueSizeBytes := Some 1024 |}.

Definition new (arg : option ConnectionOptions) : t :=
  let o := default default_options arg in
  {| options := {| host := default "localhost"%string (opt_host o);
                   port := default 9055%N (opt_port o);
                   maxKeySizeBytes := default 32 (opt_maxKeySizeBytes o);
                   maxValueSizeBytes := default 1024 (opt_maxValueSizeBytes o) |};
     socket := {| state := Fresh; written := []; waiters := [] |} |}.

(** [res[0] === 1]; an index outside the array is [undefined]. *)
Definition first_byte_is_1 (res : bytes) : bool :=
  match res !! 0 with
  | Some b => (b =? 1)%Z
  | None => false
  end.

Section Protocol.
Variable cmds : Commands.
Variable number : Type.
Variable toString : number -> jsstring.
Variable encodeNumberToUint8Array : number -> bytes.

Inductive SerializableValue : Type :=
| VBoolean (b : bool)
| VNumber (n : number)
| VString (s : jsstring).

Definition validateKey (key : jsstring) : M unit :=
  max <~ read_option maxKeySizeBytes ;;
  if max <? length key then throw KeyTooLarge else ret tt.

Definition validateValue (value : SerializableValue) : M unit :=
  match value with
  | VBoolean _ => ret tt
  | _ =>
      let value :=
        match value with
        | VNumber n => toString n
        | VString s => s
        | VBoolean _ => []
        end in
      max <~ read_option maxValueSizeBytes ;;
      if max <? length value then throw ValueTooLarge else ret tt
  end.

(** The loop [for (i = 0; i < key.length; i++) buf[i] = key.charCodeAt(i)]. *)
Definition serializeKey (key : jsstring) : M bytes :=
  validateKey key ;;
  let buf := Uint8Array.new (length key) in
  ret (fold_left (fun buf i => Uint8Array.store buf i (key !! i))
                 (seq 0 (length key)) buf).

(** The call [this.socket.connect(port, host, resolve)] of [connect]; its
    promise settles later, at the socket's ['connect'] or ['error'] event. *)
Definition connect : M unit :=
  fun c => (Ok tt, set_state Connecting c).

(** [this.socket.destroy()]. *)
Definition close : M unit :=
  fun c => (Ok tt, set_state Destroyed c).

Definition ping : M Waiter :=
  socket_write [Uint8Array.to_uint8 (PING cmds)] ;;
  socket_once_data WPing.

Definition get (key : jsstring) : M Waiter :=
  validateKey key ;;
  max <~ read_option maxKeySizeBytes ;;
  let data := Uint8Array.new (1 + max) in
  let data := Uint8Array.store data 0 (Some (GET cmds)) in
  k <~ serializeKey key ;;
  data <~ lift (Uint8Array.set data k 1) ;;
  socket_write data ;;
  socket_once_data WGet.

(** The three branches that turn the value into bytes. *)
Definition encode_value (value : SerializableValue) : bytes :=
  match value with
  | VString s => TextEncoder.encode s
  | VNumber n => encodeNumberToUint8Array n
  | VBoolean b => [if b then 1%Z else 0%Z]
  end.

(** [set] up to and including the placement of the key (lines 119-134). *)
Definition set_prepare (key : jsstring) (value : SerializableValue)
  : M (bytes * bytes) :=
  validateKey key ;;
  validateValue value ;;
  let value := encode_value value in
  max <~ read_option maxKeySizeBytes ;;
  let data := Uint8Array.new (1 + max + length value) in
  let data := Uint8Array.store data 0 (Some (SET cmds)) in
  k <~ serializeKey key ;;
  data <~ lift (Uint8Array.set data k 1) ;;
  ret (data, value).

Definition set (key : jsstring) (value : SerializableValue) : M Waiter :=
  dv <~ set_prepare key value ;;
  data <~ lift (Uint8Array.set (fst dv) (snd dv) 33) ;;
  socket_write data ;;
  socket_once_data WSet.

Definition exists_ (key : jsstring) : M Waiter :=
  validateKey key ;;
  max <~ read_option maxKeySizeBytes ;;
  let data := Uint8Array.new (1 + max) in
  let data := Uint8Array.store data 0 (Some (EXISTS cmds)) in
  k <~ serializeKey key ;;
  data <~ lift (Uint8Array.set data k 1) ;;
  socket_write data ;;
  socket_once_data WExists.

Definition delete (key : jsstring) : M Waiter :=
  validateKey key ;;
  max <~ read_option maxKeySizeBytes ;;
  let data := Uint8Array.new (1 + max) in
  let data := Uint8Array.store data 0 (Some (DELETE cmds)) in
  k <~ serializeKey key ;;
  data <~ lift (Uint8Array.set data k 1) ;;
  socket_write data ;;
  socket_once_data WDelete.

(** The continuation of each method after its [await]. *)
Definition resume (w : Waiter) (data : bytes) : Resolution :=
  match w with
  | WPing => RBoolean true
  | WGet => RResponse {| raw := Uint8Array.from data |}
  | WSet => RBoolean (first_byte_is_1 data)
  | WExists => RBoolean (first_byte_is_1 data)
  | WDelete => RBoolean (first_byte_is_1 data)
  end.

(** A ['data'] event: every pending [once] listener is called with the
    chunk, in registration order, and removed. *)
Definition on_data (data : bytes) (c : t) : list Resolution * t :=
  (map (fun w => resume w data) (waiters (socket c)),
   {| options := options c;
      socket := {| state := state (socket c);
                   written := written (socket c);
                   waiters := [] |} |}).

(** The ['connect'] event of a connecting socket. *)
Definition on_connect (c : t) : t :=
  match state (socket c) with
  | Connecting => set_state Open c
  | _ => c
  end.

(** A call of any of the five operations. *)
Inductive Request : Type :=
| ReqPing
| ReqGet (key : jsstring)
| ReqSet (key : jsstring) (value : SerializableValue)
| ReqExists (key : jsstring)
| ReqDelete (key : jsstring).

Definition call (r : Request) : M Waiter :=
  match r with
  | ReqPing => ping
  | ReqGet key => get key
  | ReqSet key value => set key value
  | ReqExists key => exists_ key
  | ReqDelete key => delete key
  end.

End Protocol.
End Client.

Arguments Client.VBoolean {number} b.
Arguments Client.VNumber {number} n.
Arguments Client.VString {number} s.
Arguments Client.ReqPing {number}.
Arguments Client.ReqGet {number} key.
Arguments Client.ReqSet {number} key value.
Arguments Client.ReqExists {number} key.
Arguments Client.ReqDelete {number} key.

(** ** Closed forms used to state the properties *)

(** The key region of a frame: the key's bytes, then zeros up to [max]. *)
Definition key_region (max : nat) (key : jsstring) : bytes :=
  map Uint8Array.to_uint8 key ++ replicate (max - length key) 0%Z.

(** A frame that carries only a key. *)
Definition key_frame (code : Z) (max : nat) (key : jsstring) : bytes :=
  Uint8Array.to_uint8 code :: key_region max key.

(** The client after [frame] was handed to [socket.write] and the listener
    [w] was registered. *)
Definition sent (c : Client.t) (frame : bytes) (w : Waiter) : Client.t :=
  {| Client.options := Client.options c;
     Client.socket :=
       {| state := state (Client.socket c);
          written := written (Client.socket c) ++ [frame];
          waiters := waiters (Client.socket c) ++ [w] |} |}.

(** The bytes on the wire: the written buffers one after the other. *)
Definition wire (c : Client.t) : bytes := concat (written (Client.socket c)).

(** The listener a request registers. *)
Definition waiter_of {number} (r : Client.Request number) : Waiter :=
  match r with
  | Client.ReqPing => WPing
  | Client.ReqGet _ => WGet
  | Client.ReqSet _ _ => WSet
  | Client.ReqExists _ => WExists
  | Client.ReqDelete _ => WDelete
  end.

(** The key of a request, if it takes one. *)
Definition key_of {number} (r : Client.Request number) : option jsstring :=
  match r with
  | Client.ReqPing => None
  | Client.ReqGet key | Client.ReqSet key _
  | Client.ReqExists key | Client.ReqDelete key => Some key
  end.

Definition is_ascii (s : jsstring) : Prop := Forall (fun c => 0 <= c < 128)%Z s.

(** The value of a [set] request. *)
Definition value_of {number} (r : Client.Request number)
  : option (Client.SerializableValue number) :=
  match r with
  | Client.ReqSet _ value => Some value
  | _ => None
  end.

(** The length [validateValue] compares with the maximum: none for a
    boolean, [value.toString().length] for a number, [value.length] for a
    string. *)
Definition checked_length {number} (toString : number -> jsstring)
    (value : Client.SerializableValue number) : option nat :=
  match value with
  | Client.VBoolean _ => None
  | Client.VNumber n => Some (length (toString n))
  | Client.VString s => Some (length s)
  end.

Definition too_long (max : nat) (len : option nat) : bool :=
  match len with
  | Some n => max <? n
  | None => false
  end.

(** The outcome of the two validations of a request, in closed form. *)
Definition request_check {number} (toString : number -> jsstring)
    (o : Options) (r : Client.Request number) : result unit :=
  if too_long (maxKeySizeBytes o) (length <$> key_of r) then Err KeyTooLarge
  else if too_long (maxValueSizeBytes o) (value_of r ≫= checked_length toString)
  then Err ValueTooLarge
  else Ok tt.

(** The buffer a request that passed validation hands to [socket.write],
    in closed form. *)
Definition request_frame {number} (cmds : Commands)
    (encodeNumberToUint8Array : number -> bytes)
    (o : Options) (r : Client.Request number) : result bytes :=
  match r with
  | Client.ReqPing => Ok [Uint8Array.to_uint8 (PING cmds)]
  | Client.ReqGet key => Ok (key_frame (GET cmds) (maxKeySizeBytes o) key)
  | Client.ReqExists key => Ok (key_frame (EXISTS cmds) (maxKeySizeBytes o) key)
  | Client.ReqDelete key => Ok (key_frame (DELETE cmds) (maxKeySizeBytes o) key)
  | Client.ReqSet key value =>
      let value := Client.encode_value number encodeNumberToUint8Array value in
      Uint8Array.set
        (key_frame (SET cmds) (maxKeySizeBytes o) key ++ replicate (length value) 0%Z)
        value 33
  end.

(** ** A sample instantiation of the parameters, for closed examples

    Integers below 10^21 in magnitude as numbers (where [toString] prints
    plain decimal digits), printed in decimal and encoded on four bytes, most
    significant first; the command codes 0 to 4. *)
Module Sample.
Definition cmds : Commands :=
  {| PING := 0; GET := 1; SET := 2; EXISTS := 3; DELETE := 4 |}.
Definition toString (n : Z) : jsstring := js (NilZero.string_of_int (Z.to_int n)).
Definition encodeNumberToUint8Array (n : Z) : bytes :=
  map (fun k => Z.land (Z.shiftr n (8 * k)) 255) [3; 2; 1; 0]%Z.

Definition options_of (k v : nat) : option ConnectionOptions :=
  Some {| opt_host := Some "localhost"%string;
          opt_port := Some 9055%N;
          opt_maxKeySizeBytes := Some k;
          opt_maxValueSizeBytes := Some v |}.

(** [{host: 'localhost', port: 9055, maxKeySizeBytes: 8, maxValueSizeBytes: 16}] *)
Definition client8 : Client.t := Client.new (options_of 8 16).
Definition client40 : Client.t := Client.new (options_of 40 1024).
Definition client_default : Client.t := Client.new None.

Definition ping := Client.ping cmds.
Definition get := Client.get cmds.
Definition set := Client.set cmds Z toString encodeNumberToUint8Array.
Definition set_prepare := Client.set_prepare cmds Z toString encodeNumberToUint8Array.
Definition exists_ := Client.exists_ cmds.
Definition delete := Client.delete cmds.
Definition call := Client.call cmds Z toString encodeNumberToUint8Array.
Definition validateValue := Client.validateValue Z toString.

(** A client whose values may have one byte at most. *)
Definition client_v1 : Client.t := Client.new (options_of 32 1).

(** A client with one [get] outstanding. *)
Definition after_get_a : Client.t := snd (get (js "a") client_default).

(** A client that was connected and then closed. *)
Definition closed_client : Client.t :=
  snd (Client.close (Client.on_connect (snd (Client.connect client_default)))).

(** A key of 40 characters. *)
Definition key40 : jsstring := js "0123456789012345678901234567890123456789".
End Sample.

(** ** Further closed forms *)

(** The constructor keeps the caller's object as [this.options] and fills
    its missing fields in place: the argument object once [new Client(arg)]
    has run. *)
Definition filled_argument (o : Options) : ConnectionOptions :=
  {| opt_host := Some (host o);
     opt_port := Some (port o);
     opt_maxKeySizeBytes := Some (maxKeySizeBytes o);
     opt_maxValueSizeBytes := Some (maxValueSizeBytes o) |}.

(** The argument [{}]. *)
Definition empty_argument : ConnectionOptions :=
  {| opt_host := None;
     opt_port := None;
     opt_maxKeySizeBytes := None;
     opt_maxValueSizeBytes := None |}.

(** Every element is a UTF-16 code unit. *)
Definition code_units (s : jsstring) : Prop := Forall (fun c => 0 <= c < 65536)%Z s.

(** Every character is a single non-zero byte (U+0001 to U+00FF). *)
Definition plain_bytes (s : jsstring) : Prop := Forall (fun c => 1 <= c < 256)%Z s.

(** ** Properties *)

Lemma bind_ok {A B} (m : Client.M A) (k : A -> Client.M B) c a c' :
  m c = (Ok a, c') -> Client.bind m k c = k a c'.
Proof. intros H. unfold Client.bind. now rewrite H. Qed.

Lemma bind_err {A B} (m : Client.M A) (k : A -> Client.M B) c e c' :
  m c = (Err e, c') -> Client.bind m k c = (Err e, c').
Proof. intros H. unfold Client.bind. now rewrite H. Qed.

Lemma validateKey_ok key c :
  length key <= maxKeySizeBytes (Client.options c) ->
  Client.validateKey key c = (Ok tt, c).
Proof.
  intros H. unfold Client.validateKey, Client.bind, Client.read_option.
  destruct (Nat.ltb_spec (maxKeySizeBytes (Client.options c)) (length key)); [lia | reflexivity].
Qed.

Lemma validateKey_err key c :
  maxKeySizeBytes (Client.options c) < length key ->
  Client.validateKey key c = (Err KeyTooLarge, c).
Proof.
  intros H. unfold Client.validateKey, Client.bind, Client.read_option.
  destruct (Nat.ltb_spec (maxKeySizeBytes (Client.options c)) (length key)); [reflexivity | lia].
Qed.

(** The loop of [serializeKey] after [n] rounds. *)
Lemma serializeKey_loop (key : jsstring) n :
  n <= length key ->
  fold_left (fun buf i => Uint8Array.store buf i (key !! i))
            (seq 0 n) (Uint8Array.new (length key))
  = map Uint8Array.to_uint8 (take n key) ++ replicate (length key - n) 0%Z.
Proof.
  induction n as [|n IH]; intros Hn.
  - simpl. now rewrite Nat.sub_0_r.
  - rewrite seq_S, fold_left_app, IH by lia. simpl.
    destruct (lookup_lt_is_Some_2 key n) as [x Hx]; [lia|].
    rewrite (take_S_r _ _ _ Hx), map_app, Hx. simpl.
    unfold Uint8Array.store.
    rewrite insert_app_r_alt by (rewrite length_map, length_take; lia).
    rewrite length_map, length_take, Nat.min_l, Nat.sub_diag by lia.
    replace (length key - n) with (S (length key - S n)) by lia.
    simpl. now rewrite <- app_assoc.
Qed.

Lemma serializeKey_ok key c :
  length key <= maxKeySizeBytes (Client.options c) ->
  Client.serializeKey key c = (Ok (map Uint8Array.to_uint8 key), c).
Proof.
  intros H. unfold Client.serializeKey.
  rewrite (bind_ok _ _ _ _ _ (validateKey_ok key c H)).
  rewrite serializeKey_loop by lia.
  now rewrite firstn_all, Nat.sub_diag, app_nil_r.
Qed.

Lemma serializeKey_err key c :
  maxKeySizeBytes (Client.options c) < length key ->
  Client.serializeKey key c = (Err KeyTooLarge, c).
Proof.
  intros H. unfold Client.serializeKey.
  now rewrite (bind_err _ _ _ _ _ (validateKey_err key c H)).
Qed.

(** The command byte and the key placed in a zeroed buffer of [1 + max + n]
    bytes. *)
Lemma place_key code max n (k : bytes) :
  length k <= max ->
  Uint8Array.set (Uint8Array.store (Uint8Array.new (1 + max + n)) 0 (Some code)) k 1
  = Ok (Uint8Array.to_uint8 code :: k ++ replicate (max - length k + n) 0%Z).
Proof.
  intros H. unfold Uint8Array.set, Uint8Array.store, Uint8Array.new.
  rewrite length_insert, length_replicate.
  destruct (Nat.ltb_spec (1 + max + n) (1 + length k)); [lia|].
  simpl. rewrite drop_replicate. do 4 f_equal. lia.
Qed.

Lemma place_key_only code max (key : jsstring) :
  length key <= max ->
  Uint8Array.set (Uint8Array.store (Uint8Array.new (1 + max)) 0 (Some code))
                 (map Uint8Array.to_uint8 key) 1
  = Ok (key_frame code max key).
Proof.
  intros H. replace (1 + max) with (1 + max + 0) by lia.
  rewrite place_key by (now rewrite length_map).
  unfold key_frame, key_region. rewrite length_map. do 4 f_equal. lia.
Qed.

Lemma place_key_value code max n (key : jsstring) :
  length key <= max ->
  Uint8Array.set (Uint8Array.store (Uint8Array.new (1 + max + n)) 0 (Some code))
                 (map Uint8Array.to_uint8 key) 1
  = Ok (key_frame code max key ++ replicate n 0%Z).
Proof.
  intros H. rewrite place_key by (now rewrite length_map).
  unfold key_frame, key_region. rewrite length_map. simpl. do 2 f_equal.
  now rewrite replicate_add, app_assoc.
Qed.

Lemma length_key_region max (key : jsstring) :
  length key <= max -> length (key_region max key) = max.
Proof.
  intros H. unfold key_region. rewrite length_app, length_map, length_replicate. lia.
Qed.

Lemma encode_ascii (s : jsstring) :
  is_ascii s -> TextEncoder.encode s = s.
Proof.
  induction 1 as [|c s Hc _ IH]; [reflexivity|].
  simpl. unfold TextEncoder.is_high_surrogate, TextEncoder.is_low_surrogate,
    TextEncoder.utf8_of_code_point.
  destruct (Z.leb_spec 55296 c); [lia|].
  destruct (Z.leb_spec 56320 c); [lia|].
  destruct (Z.ltb_spec c 128); [|lia].
  simpl. now rewrite IH.
Qed.

Section Properties.
Variable cmds : Commands.
Variable number : Type.
Variable toString : number -> jsstring.
Variable encodeNumberToUint8Array : number -> bytes.

Local Abbreviation value := (Client.SerializableValue number).
Local Abbreviation request := (Client.Request number).
Local Abbreviation validateValue := (Client.validateValue number toString).
Local Abbreviation encode_value := (Client.encode_value number encodeNumberToUint8Array).
Local Abbreviation set_prepare :=
  (Client.set_prepare cmds number toString encodeNumberToUint8Array).
Local Abbreviation set := (Client.set cmds number toString encodeNumberToUint8Array).
Local Abbreviation call := (Client.call cmds number toString encodeNumberToUint8Array).
Local Abbreviation check := (request_check toString).
Local Abbreviation frame_of := (request_frame cmds encodeNumberToUint8Array).
Local Abbreviation K c := (maxKeySizeBytes (Client.options c)).
Local Abbreviation V c := (maxValueSizeBytes (Client.options c)).

Lemma validateValue_run (v : value) c :
  validateValue v c
  = (if too_long (V c) (checked_length toString v)
     then Err ValueTooLarge else Ok tt, c).
Proof.
  destruct v as [b|n|s]; simpl; [reflexivity| |];
    unfold Client.bind, Client.read_option;
    match goal with |- context [?a <? ?b] => destruct (a <? b) end; reflexivity.
Qed.

Lemma validateValue_ok (v : value) c :
  too_long (V c) (checked_length toString v) = false ->
  validateValue v c = (Ok tt, c).
Proof. intros H. now rewrite validateValue_run, H. Qed.

Lemma validateValue_err (v : value) c :
  too_long (V c) (checked_length toString v) = true ->
  validateValue v c = (Err ValueTooLarge, c).
Proof. intros H. now rewrite validateValue_run, H. Qed.

(** Every step of a method body that has a closed form above. *)
Ltac step :=
  first
    [ rewrite (bind_ok _ _ _ _ _ (validateKey_ok _ _ ltac:(eassumption)))
    | rewrite (bind_err _ _ _ _ _ (validateKey_err _ _ ltac:(eassumption)))
    | rewrite (bind_ok _ _ _ _ _ (serializeKey_ok _ _ ltac:(eassumption)))
    | rewrite (bind_ok _ _ _ _ _ (validateValue_ok _ _ ltac:(eassumption)))
    | rewrite (bind_err _ _ _ _ _ (validateValue_err _ _ ltac:(eassumption))) ].

Lemma get_ok key c :
  length key <= K c ->
  Client.get cmds key c = (Ok WGet, sent c (key_frame (GET cmds) (K c) key) WGet).
Proof.
  intros H. unfold Client.get. step.
  unfold Client.bind at 1, Client.read_option. step.
  unfold Client.bind, Client.lift. now rewrite place_key_only.
Qed.

Lemma exists_ok key c :
  length key <= K c ->
  Client.exists_ cmds key c
  = (Ok WExists, sent c (key_frame (EXISTS cmds) (K c) key) WExists).
Proof.
  intros H. unfold Client.exists_. step.
  unfold Client.bind at 1, Client.read_option. step.
  unfold Client.bind, Client.lift. now rewrite place_key_only.
Qed.

Lemma delete_ok key c :
  length key <= K c ->
  Client.delete cmds key c
  = (Ok WDelete, sent c (key_frame (DELETE cmds) (K c) key) WDelete).
Proof.
  intros H. unfold Client.delete. step.
  unfold Client.bind at 1, Client.read_option. step.
  unfold Client.bind, Client.lift. now rewrite place_key_only.
Qed.

Lemma set_prepare_ok key (v : value) c :
  length key <= K c ->
  too_long (V c) (checked_length toString v) = false ->
  set_prepare key v c
  = (Ok (key_frame (SET cmds) (K c) key ++ replicate (length (encode_value v)) 0%Z,
         encode_value v), c).
Proof.
  intros Hk Hv. unfold Client.set_prepare. step. step.
  unfold Client.bind at 1, Client.read_option. step.
  unfold Client.bind, Client.lift, Client.ret. now rewrite place_key_value.
Qed.

Lemma set_ok key (v : value) c :
  length key <= K c ->
  too_long (V c) (checked_length toString v) = false ->
  set key v c
  = match frame_of (Client.options c) (Client.ReqSet key v) with
    | Ok frame => (Ok WSet, sent c frame WSet)
    | Err e => (Err e, c)
    end.
Proof.
  intros Hk Hv. unfold Client.set.
  rewrite (bind_ok _ _ _ _ _ (set_prepare_ok key v c Hk Hv)).
  unfold Client.bind, Client.lift. simpl.
  now destruct (Uint8Array.set _ _ 33).
Qed.

Lemma set_prepare_key_err key (v : value) c :
  K c < length key -> set_prepare key v c = (Err KeyTooLarge, c).
Proof. intros H. unfold Client.set_prepare. now step. Qed.

Lemma set_prepare_value_err key (v : value) c :
  length key <= K c ->
  too_long (V c) (checked_length toString v) = true ->
  set_prepare key v c = (Err ValueTooLarge, c).
Proof. intros Hk Hv. unfold Client.set_prepare. step. now step. Qed.

Lemma key_too_long key c r :
  key_of r = Some key -> K c < length key ->
  call r c = (Err KeyTooLarge, c).
Proof.
  intros Hr H. destruct r as [|k|k v|k|k]; simpl in Hr; try discriminate;
    injection Hr as ->; simpl.
  - unfold Client.get. now step.
  - unfold Client.set.
    now rewrite (bind_err _ _ _ _ _ (set_prepare_key_err key v c H)).
  - unfold Client.exists_. now step.
  - unfold Client.delete. now step.
Qed.

(** The five operations in closed form: the two validations, then the
    frame, then the write and the wait. *)
Lemma call_run (r : request) c :
  call r c
  = match check (Client.options c) r with
    | Err e => (Err e, c)
    | Ok _ =>
        match frame_of (Client.options c) r with
        | Ok frame => (Ok (waiter_of r), sent c frame (waiter_of r))
        | Err e => (Err e, c)
        end
    end.
Proof.
  unfold request_check.
  destruct (too_long (K c) (length <$> key_of r)) eqn:Hk.
  - destruct (key_of r) as [key|] eqn:Hr; [|discriminate]. simpl in Hk.
    apply (key_too_long key); [assumption|]. now apply Nat.ltb_lt.
  - destruct r as [|key|key v|key|key]; simpl in *.
    + reflexivity.
    + apply get_ok. now apply Nat.ltb_ge.
    + apply Nat.ltb_ge in Hk.
      destruct (too_long (V c) (checked_length toString v)) eqn:Hv.
      * unfold Client.set.
        now rewrite (bind_err _ _ _ _ _ (set_prepare_value_err key v c Hk Hv)).
      * now apply set_ok.
    + apply exists_ok. now apply Nat.ltb_ge.
    + apply delete_ok. now apply Nat.ltb_ge.
Qed.

Lemma length_key_frame code max (key : jsstring) :
  length key <= max -> length (key_frame code max key) = 1 + max.
Proof. intros H. unfold key_frame. simpl. now rewrite length_key_region. Qed.

(** The hardcoded offset 33 is beyond the end of the frame whenever the
    key region is shorter than 32 bytes. *)
Lemma set_small_key_region key (v : value) c :
  K c < 32 -> length key <= K c ->
  too_long (V c) (checked_length toString v) = false ->
  set key v c = (Err RangeError, c).
Proof.
  intros H32 Hk Hv. rewrite set_ok by assumption.
  cbv beta iota zeta delta [request_frame]. unfold Uint8Array.set.
  rewrite length_app, length_key_frame, length_replicate by assumption.
  destruct (Nat.ltb_spec (1 + K c + length (encode_value v))
                         (33 + length (encode_value v))); [reflexivity | lia].
Qed.

(** With the default key size the offset 33 is the end of the key region. *)
Lemma set_default_key_region key (v : value) c :
  K c = 32 -> length key <= K c ->
  too_long (V c) (checked_length toString v) = false ->
  set key v c
  = (Ok WSet, sent c (key_frame (SET cmds) 32 key ++ encode_value v) WSet).
Proof.
  intros H32 Hk Hv. rewrite set_ok by assumption.
  cbv beta iota zeta delta [request_frame]. rewrite H32 in *.
  unfold Uint8Array.set.
  rewrite length_app, length_key_frame, length_replicate by assumption.
  destruct (Nat.ltb_spec (1 + 32 + length (encode_value v))
                         (33 + length (encode_value v))); [lia|].
  rewrite take_app_length' by (now rewrite length_key_frame).
  rewrite drop_ge, app_nil_r; [reflexivity|].
  rewrite length_app, length_key_frame, length_replicate by assumption. lia.
Qed.

(** One chunk answers every pending operation. *)
Lemma on_data_resolves_all data c :
  length (fst (Client.on_data data c)) = length (waiters (Client.socket c))
  /\ waiters (Client.socket (snd (Client.on_data data c))) = [].
Proof. simpl. now rewrite length_map. Qed.

Lemma call_errors (r : request) c e :
  fst (call r c) = Err e -> e = KeyTooLarge \/ e = ValueTooLarge \/ e = RangeError.
Proof.
  rewrite call_run. unfold request_check.
  destruct (too_long _ (length <$> key_of r)); [simpl; intros [= <-]; auto|].
  destruct (too_long _ (value_of r ≫= _)); [simpl; intros [= <-]; auto|].
  destruct r as [|k|k v|k|k]; simpl; try discriminate.
  unfold Uint8Array.set.
  match goal with |- context [?a <? ?b] => destruct (a <? b) end;
    simpl; [intros [= <-]; auto | discriminate].
Qed.

(** C2 (as amended): the session has no busy guard and no queue.  Each
    operation hands its complete frame to the socket in one write when it
    is called, so a second operation started before the first's response
    has arrived is written at once and both requests are outstanding; the
    bytes of the two frames are not interleaved: the wire carries the
    first frame whole, then the second. *)
Theorem back_to_back_requests (r1 r2 : request) c f1 f2 :
  check (Client.options c) r1 = Ok tt ->
  frame_of (Client.options c) r1 = Ok f1 ->
  check (Client.options c) r2 = Ok tt ->
  frame_of (Client.options c) r2 = Ok f2 ->
  exists c1 c2,
    call r1 c = (Ok (waiter_of r1), c1)
    /\ call r2 c1 = (Ok (waiter_of r2), c2)
    /\ written (Client.socket c2) = written (Client.socket c) ++ [f1; f2]
    /\ wire c2 = wire c ++ f1 ++ f2
    /\ waiters (Client.socket c2)
       = waiters (Client.socket c) ++ [waiter_of r1; waiter_of r2].
Proof.
  intros Hc1 Hf1 Hc2 Hf2.
  exists (sent c f1 (waiter_of r1)),
         (sent (sent c f1 (waiter_of r1)) f2 (waiter_of r2)).
  split; [now rewrite call_run, Hc1, Hf1|].
  split; [rewrite call_run; simpl; now rewrite Hc2, Hf2|].
  unfold wire. simpl. rewrite <- !app_assoc. simpl.
  repeat split. rewrite !concat_app. simpl. now rewrite app_nil_r.
Qed.

(** C4 (as amended): no operation looks at the state of the session.
    Whatever the socket's state (never connected, connecting, connected or
    destroyed), an operation validates its arguments, hands its frame to
    the socket and waits for a chunk exactly as in any other state; it
    never fails with NotConnected or SessionClosed.  [close] only destroys
    the socket. *)
Theorem operations_ignore_socket_state (r : request) c st :
  call r (Client.set_state st c)
  = (fst (call r c), Client.set_state st (snd (call r c)))
  /\ fst (call r c) <> Err NotConnected
  /\ fst (call r c) <> Err SessionClosed
  /\ Client.close c = (Ok tt, Client.set_state Destroyed c).
Proof.
  split; [|repeat split].
  - rewrite !call_run. simpl.
    destruct (check (Client.options c) r); [|reflexivity].
    now destruct (frame_of (Client.options c) r).
  - intros H. apply call_errors in H as [H|[H|H]]; discriminate.
  - intros H. apply call_errors in H as [H|[H|H]]; discriminate.
Qed.

(** C5: in every operation the key is validated first, then the value,
    then the frame is built, and only a complete frame is written: an
    oversized key gives KeyTooLarge whatever the value, an oversized
    value (with a valid key) gives ValueTooLarge, in both cases with the
    client (and so the socket) unchanged; and any call either fails
    leaving the socket untouched or writes exactly the one frame built
    after both validations passed. *)
Theorem validation_precedes_write (r : request) c :
  (forall key, key_of r = Some key -> K c < length key ->
     call r c = (Err KeyTooLarge, c))
  /\ (forall key v n, r = Client.ReqSet key v -> length key <= K c ->
        checked_length toString v = Some n -> V c < n ->
        call r c = (Err ValueTooLarge, c))
  /\ ((exists e, call r c = (Err e, c))
      \/ (exists frame,
            check (Client.options c) r = Ok tt
            /\ frame_of (Client.options c) r = Ok frame
            /\ call r c = (Ok (waiter_of r), sent c frame (waiter_of r)))).
Proof.
  split; [|split].
  - intros key Hr H. now apply (key_too_long key).
  - intros key v n -> Hk Hn Hv. simpl. unfold Client.set.
    rewrite (bind_err _ _ c ValueTooLarge c); [reflexivity|].
    apply set_prepare_value_err; [assumption|].
    rewrite Hn. simpl. now apply Nat.ltb_lt.
  - rewrite call_run.
    destruct (check (Client.options c) r) as [[]|e]; [|left; eauto].
    destruct (frame_of (Client.options c) r) as [frame|e]; [|left; eauto].
    right. eauto.
Qed.

(** The buffer [set('user1', 'abc')] has built when it reaches the copy of
    the value, with a key size of 8: both validations passed, the value is
    the three bytes 'a','b','c', and the buffer has 12 = 1 + 8 + 3 bytes,
    [SET,'u','s','e','r','1',0,0,0,0,0,0]. *)
Lemma set_user1_abc_frame_buffer :
  let c := Client.new
             (Some {| opt_host := Some "localhost"%string;
                      opt_port := Some 9055%N;
                      opt_maxKeySizeBytes := Some 8;
                      opt_maxValueSizeBytes := Some 16 |}) in
  let buffer := Uint8Array.to_uint8 (SET cmds)
                :: js "user1" ++ [0; 0; 0]%Z ++ [0; 0; 0]%Z in
  set_prepare (js "user1") (Client.VString (js "abc")) c
  = (Ok (buffer, js "abc"), c)
  /\ length buffer = 12
  /\ Client.resume WSet [1%Z] = RBoolean true.
Proof.
  intros c buffer. split; [|split; reflexivity].
  rewrite set_prepare_ok; [reflexivity | simpl; lia | reflexivity].
Qed.

(** What [validateValue] compares with the maximum value size: the length
    of a string in UTF-16 code units ([value.length], which is its UTF-8
    byte length when the string is ASCII), the length of the string form of
    a number, and nothing for a boolean, which encodes to one byte. *)
Lemma value_validation c :
  (forall s, validateValue (Client.VString s) c = (Err ValueTooLarge, c)
             <-> V c < length s)
  /\ (forall n, validateValue (Client.VNumber n) c = (Err ValueTooLarge, c)
                <-> V c < length (toString n))
  /\ (forall b, validateValue (Client.VBoolean b) c = (Ok tt, c)
                /\ length (encode_value (Client.VBoolean b)) = 1)
  /\ (forall v, validateValue v c = (Err ValueTooLarge, c)
                \/ validateValue v c = (Ok tt, c))
  /\ (forall s, is_ascii s ->
                length (encode_value (Client.VString s)) = length s).
Proof.
  repeat split.
  - rewrite validateValue_run. simpl.
    destruct (Nat.ltb_spec (V c) (length s)); [trivial | discriminate].
  - intros H. rewrite validateValue_run. simpl.
    now destruct (Nat.ltb_spec (V c) (length s)); [|lia].
  - rewrite validateValue_run. simpl.
    destruct (Nat.ltb_spec (V c) (length (toString n))); [trivial | discriminate].
  - intros H. rewrite validateValue_run. simpl.
    now destruct (Nat.ltb_spec (V c) (length (toString n))); [|lia].
  - intros v. rewrite validateValue_run.
    destruct (too_long _ _); auto.
  - intros s Hs. simpl. now rewrite encode_ascii.
Qed.

(** C7: a key whose encoded length (one byte per code unit, so
    [key.length]) exceeds the configured maximum key size makes
    [serializeKey] and each of [get], [set], [exists] and [delete] fail
    with KeyTooLarge, the client unchanged: nothing is written. *)
Theorem oversized_key_rejected key (v : value) c :
  K c < length key ->
  Client.serializeKey key c = (Err KeyTooLarge, c)
  /\ Client.get cmds key c = (Err KeyTooLarge, c)
  /\ set key v c = (Err KeyTooLarge, c)
  /\ Client.exists_ cmds key c = (Err KeyTooLarge, c)
  /\ Client.delete cmds key c = (Err KeyTooLarge, c).
Proof.
  intros H. split; [now apply serializeKey_err|].
  repeat split.
  - now apply (key_too_long key c (Client.ReqGet key)).
  - now apply (key_too_long key c (Client.ReqSet key v)).
  - now apply (key_too_long key c (Client.ReqExists key)).
  - now apply (key_too_long key c (Client.ReqDelete key)).
Qed.

(** C10: for a valid key, the frames written by [get], [exists] and
    [delete] share everything after byte 0: each is its command byte
    followed by the same key region of exactly the configured maximum key
    size, the encoded key first and zeros after it. *)
Theorem key_only_frames_agree key c :
  length key <= K c ->
  exists region,
    length region = K c
    /\ region = map Uint8Array.to_uint8 key ++ replicate (K c - length key) 0%Z
    /\ Client.serializeKey key c = (Ok (take (length key) region), c)
    /\ Client.get cmds key c
       = (Ok WGet, sent c (Uint8Array.to_uint8 (GET cmds) :: region) WGet)
    /\ Client.exists_ cmds key c
       = (Ok WExists, sent c (Uint8Array.to_uint8 (EXISTS cmds) :: region) WExists)
    /\ Client.delete cmds key c
       = (Ok WDelete, sent c (Uint8Array.to_uint8 (DELETE cmds) :: region) WDelete).
Proof.
  intros H. exists (key_region (K c) key).
  split; [now apply length_key_region|].
  split; [reflexivity|].
  split.
  - rewrite serializeKey_ok by assumption. unfold key_region.
    now rewrite take_app_length' by (now rewrite length_map).
  - split; [now apply get_ok|]. split; [now apply exists_ok | now apply delete_ok].
Qed.

End Properties.

(** C8: the status check of [set], [exists] and [delete] is true exactly
    when the first byte of the response is 1; any other first byte, and an
    empty response, give false; the check never throws. *)
Theorem status_decoding (w : Waiter) (data : bytes) :
  w = WSet \/ w = WExists \/ w = WDelete ->
  exists b,
    Client.resume w data = RBoolean b
    /\ (b = true <-> exists rest, data = 1%Z :: rest)
    /\ Client.resume w [] = RBoolean false.
Proof.
  intros Hw. exists (Client.first_byte_is_1 data).
  assert (Hb : Client.first_byte_is_1 data = true <-> exists rest, data = 1%Z :: rest).
  { unfold Client.first_byte_is_1. destruct data as [|b rest]; simpl.
    - split; [discriminate | intros [rest Heq]; discriminate].
    - split.
      + intros Hb. apply Z.eqb_eq in Hb. subst b. eauto.
      + intros [rest' Heq]. injection Heq as -> _. reflexivity. }
  destruct Hw as [-> | [-> | ->] ]; simpl; auto.
Qed.

(** C9: for a key that passes validation, [serializeKey] returns as many
    bytes as the key has characters (UTF-16 code units, what [key.length]
    counts), and byte [i] is the code of character [i] reduced to a single
    byte, that is, modulo 256. *)
Theorem serializeKey_truncates key c :
  length key <= maxKeySizeBytes (Client.options c) ->
  exists buf,
    Client.serializeKey key c = (Ok buf, c)
    /\ length buf = length key
    /\ forall i, buf !! i = (fun code => (code mod 256)%Z) <$> key !! i.
Proof.
  intros H. exists (map Uint8Array.to_uint8 key).
  split; [now apply serializeKey_ok|].
  split; [now rewrite length_map|].
  intros i. now rewrite list_lookup_fmap.
Qed.

(** ** The properties at concrete inputs *)

(** C1 (the code at two failing inputs): [set] places the value at the
    hardcoded offset 33, not at [1 + maxKeySizeBytes].  With a key size of 8,
    [set('user1', 'abc')] throws a RangeError and writes nothing; with a key
    size of 40 and a key of 40 characters the value lands at offset 33,
    inside the key region, and offset 41 = 1 + 40 holds a zero. *)
Theorem set_value_offset_hardcoded :
  Sample.set (js "user1") (Client.VString (js "abc")) Sample.client8
  = (Err RangeError, Sample.client8)
  /\ exists frame,
       Sample.set Sample.key40 (Client.VString (js "abc")) Sample.client40
       = (Ok WSet, sent Sample.client40 frame WSet)
       /\ length frame = 44
       /\ take 3 (drop 33 frame) = js "abc"
       /\ take 3 (drop 41 frame) = [0; 0; 0]%Z
       /\ take 40 (drop 1 frame) <> map Uint8Array.to_uint8 Sample.key40.
Proof.
  split; [reflexivity|].
  eexists. split; [vm_compute; reflexivity|].
  vm_compute. repeat split. discriminate.
Qed.

Lemma back_to_back_requests_witness :
  exists c1 c2,
    Sample.call (Client.ReqGet (js "a")) Sample.client_default = (Ok WGet, c1)
    /\ Sample.call (Client.ReqSet (js "b") (Client.VBoolean true)) c1 = (Ok WSet, c2)
    /\ written (Client.socket c2)
       = written (Client.socket Sample.client_default)
         ++ [key_frame 1 32 (js "a"); key_frame 2 32 (js "b") ++ [1%Z]]
    /\ wire c2
       = wire Sample.client_default
         ++ key_frame 1 32 (js "a") ++ key_frame 2 32 (js "b") ++ [1%Z]
    /\ waiters (Client.socket c2)
       = waiters (Client.socket Sample.client_default) ++ [WGet; WSet].
Proof.
  apply (back_to_back_requests Sample.cmds Z Sample.toString
           Sample.encodeNumberToUint8Array
           (Client.ReqGet (js "a")) (Client.ReqSet (js "b") (Client.VBoolean true))
           Sample.client_default);
    reflexivity.
Defined.

(** C2 fails on the code: with a [get] outstanding, a second [get] is
    written to the socket at once, and the one chunk that arrives next
    answers both. *)
Lemma second_request_written_while_first_outstanding :
  waiters (Client.socket Sample.after_get_a) = [WGet]
  /\ Sample.call (Client.ReqGet (js "b")) Sample.after_get_a
     = (Ok WGet, sent Sample.after_get_a (key_frame 1 32 (js "b")) WGet)
  /\ written (Client.socket
                (snd (Sample.call (Client.ReqGet (js "b")) Sample.after_get_a)))
     = [key_frame 1 32 (js "a"); key_frame 1 32 (js "b")]
  /\ fst (Client.on_data [7%Z]
            (snd (Sample.call (Client.ReqGet (js "b")) Sample.after_get_a)))
     = [RResponse {| raw := [7%Z] |}; RResponse {| raw := [7%Z] |}].
Proof. repeat split. Qed.

(** C3 (the code at the claim's input): with the configuration
    [{host: 'localhost', port: 9055, maxKeySizeBytes: 8, maxValueSizeBytes: 16}],
    [set('user1', 'abc')] sends no frame: the copy of the value at the fixed
    offset 33 throws a RangeError on the 12-byte buffer, so the call is
    rejected, nothing is written, no listener is registered, and the reply
    [1] resolves nothing. *)
Theorem set_user1_abc_sends_no_25_byte_frame :
  Sample.set (js "user1") (Client.VString (js "abc")) Sample.client8
  = (Err RangeError, Sample.client8)
  /\ written (Client.socket
                (snd (Sample.set (js "user1") (Client.VString (js "abc"))
                        Sample.client8))) = []
  /\ waiters (Client.socket
                (snd (Sample.set (js "user1") (Client.VString (js "abc"))
                        Sample.client8))) = []
  /\ fst (Client.on_data [1%Z]
            (snd (Sample.set (js "user1") (Client.VString (js "abc"))
                    Sample.client8))) = []
  /\ (length <$> (match fst (Sample.set_prepare (js "user1")
                                (Client.VString (js "abc")) Sample.client8) with
                  | Ok dv => Some (fst dv)
                  | Err _ => None
                  end)) = Some 12.
Proof. repeat split. Qed.

(** C4 fails on the code: [ping] on a client that never connected, and
    [get] on a closed one, both write their frame and wait; neither fails. *)
Lemma operations_proceed_when_not_connected :
  state (Client.socket Sample.client_default) = Fresh
  /\ Sample.call Client.ReqPing Sample.client_default
     = (Ok WPing, sent Sample.client_default [0%Z] WPing)
  /\ fst (Sample.call Client.ReqPing Sample.client_default) <> Err NotConnected
  /\ state (Client.socket Sample.closed_client) = Destroyed
  /\ Sample.call (Client.ReqGet (js "k")) Sample.closed_client
     = (Ok WGet, sent Sample.closed_client (key_frame 1 32 (js "k")) WGet)
  /\ fst (Sample.call (Client.ReqGet (js "k")) Sample.closed_client)
     <> Err SessionClosed.
Proof. repeat split; discriminate. Qed.

Lemma validation_precedes_write_witness :
  Sample.call (Client.ReqSet (js "123456789") (Client.VString (js "01234567890123456")))
              Sample.client8
  = (Err KeyTooLarge, Sample.client8)
  /\ Sample.call (Client.ReqSet (js "user1") (Client.VString (js "01234567890123456")))
                 Sample.client8
     = (Err ValueTooLarge, Sample.client8).
Proof.
  split.
  - apply (proj1 (validation_precedes_write Sample.cmds Z Sample.toString
                    Sample.encodeNumberToUint8Array _ Sample.client8)
             (js "123456789")); [reflexivity | simpl; lia].
  - apply (proj1 (proj2 (validation_precedes_write Sample.cmds Z Sample.toString
                           Sample.encodeNumberToUint8Array _ Sample.client8))
             (js "user1") (Client.VString (js "01234567890123456")) 17);
      [reflexivity | simpl; lia | reflexivity | simpl; lia].
Defined.

(** C6 (the code at two failing inputs): the limit is named
    [maxValueSizeBytes], but [validateValue] compares [value.length].  The
    one-character string U+00E9 has two UTF-8 bytes, yet it passes the
    validation with a maximum value size of one byte, and [set] sends both
    bytes; a string of 1024 characters U+20AC passes the default limit of
    1024 and is encoded to 3072 bytes. *)
Theorem two_byte_value_passes_one_byte_limit :
  maxValueSizeBytes (Client.options Sample.client_v1) = 1
  /\ length (TextEncoder.encode [233%Z]) = 2
  /\ Sample.validateValue (Client.VString [233%Z]) Sample.client_v1
     = (Ok tt, Sample.client_v1)
  /\ Sample.set (js "k") (Client.VString [233%Z]) Sample.client_v1
     = (Ok WSet, sent Sample.client_v1 (key_frame 2 32 (js "k") ++ [195; 169]%Z) WSet)
  /\ maxValueSizeBytes (Client.options Sample.client_default) = 1024
  /\ Sample.validateValue (Client.VString (replicate 1024 8364%Z))
                          Sample.client_default
     = (Ok tt, Sample.client_default)
  /\ length (TextEncoder.encode (replicate 1024 8364%Z)) = 3072.
Proof. repeat split; vm_compute; reflexivity. Qed.

Lemma value_validation_witness :
  Sample.validateValue (Client.VString (js "ab")) Sample.client_v1
  = (Err ValueTooLarge, Sample.client_v1)
  /\ length (Client.encode_value Z Sample.encodeNumberToUint8Array
               (Client.VString (js "ab"))) = 2.
Proof.
  pose proof (value_validation Z Sample.toString Sample.encodeNumberToUint8Array
                Sample.client_v1) as (Hs & _ & _ & _ & Ha).
  split.
  - apply (proj2 (Hs (js "ab"))). simpl. lia.
  - apply (Ha (js "ab")). unfold is_ascii. repeat constructor; lia.
Defined.

Lemma oversized_key_rejected_witness :
  8 < length (js "123456789")
  /\ Client.serializeKey (js "123456789") Sample.client8
     = (Err KeyTooLarge, Sample.client8)
  /\ Sample.get (js "123456789") Sample.client8 = (Err KeyTooLarge, Sample.client8)
  /\ Sample.set (js "123456789") (Client.VBoolean true) Sample.client8
     = (Err KeyTooLarge, Sample.client8)
  /\ Sample.exists_ (js "123456789") Sample.client8 = (Err KeyTooLarge, Sample.client8)
  /\ Sample.delete (js "123456789") Sample.client8 = (Err KeyTooLarge, Sample.client8).
Proof.
  split; [simpl; lia|].
  apply (oversized_key_rejected Sample.cmds Z Sample.toString
           Sample.encodeNumberToUint8Array (js "123456789") (Client.VBoolean true)
           Sample.client8).
  simpl. lia.
Defined.

Lemma status_decoding_witness :
  exists b,
    Client.resume WExists [1%Z] = RBoolean b
    /\ (b = true <-> exists rest, [1%Z] = 1%Z :: rest)
    /\ Client.resume WExists [] = RBoolean false.
Proof. apply (status_decoding WExists [1%Z]). right. left. reflexivity. Defined.

Lemma serializeKey_truncates_witness :
  exists buf,
    Client.serializeKey [8364%Z; 97%Z] Sample.client_default
    = (Ok buf, Sample.client_default)
    /\ length buf = 2
    /\ forall i, buf !! i = (fun code => (code mod 256)%Z) <$> [8364%Z; 97%Z] !! i.
Proof. apply (serializeKey_truncates [8364%Z; 97%Z] Sample.client_default). simpl. lia. Defined.

Lemma key_only_frames_agree_witness :
  exists region,
    length region = 8
    /\ region = map Uint8Array.to_uint8 (js "user1") ++ replicate (8 - 5) 0%Z
    /\ Client.serializeKey (js "user1") Sample.client8
       = (Ok (take 5 region), Sample.client8)
    /\ Sample.get (js "user1") Sample.client8
       = (Ok WGet, sent Sample.client8 (Uint8Array.to_uint8 1 :: region) WGet)
    /\ Sample.exists_ (js "user1") Sample.client8
       = (Ok WExists, sent Sample.client8 (Uint8Array.to_uint8 3 :: region) WExists)
    /\ Sample.delete (js "user1") Sample.client8
       = (Ok WDelete, sent Sample.client8 (Uint8Array.to_uint8 4 :: region) WDelete).
Proof.
  apply (key_only_frames_agree Sample.cmds (js "user1") Sample.client8). simpl. lia.
Defined.

(** ** Further properties of the client *)

Lemma length_utf8_of_code_point cp :
  1 <= length (TextEncoder.utf8_of_code_point cp) <= 4
  /\ ((cp < 65536)%Z -> length (TextEncoder.utf8_of_code_point cp) <= 3)
  /\ ((65536 <= cp)%Z -> length (TextEncoder.utf8_of_code_point cp) = 4).
Proof.
  unfold TextEncoder.utf8_of_code_point.
  destruct (Z.ltb_spec cp 128); [simpl; lia|].
  destruct (Z.ltb_spec cp 2048); [simpl; lia|].
  destruct (Z.ltb_spec cp 65536); simpl; lia.
Qed.

(** UTF-8 takes between one and three bytes per UTF-16 code unit. *)
Lemma length_encode_bounds n : forall s : jsstring,
  length s <= n -> code_units s ->
  length s <= length (TextEncoder.encode s) <= 3 * length s.
Proof.
  induction n as [|n IH]; intros s Hn Hs.
  - destruct s; [simpl; lia | simpl in Hn; lia].
  - destruct s as [|c rest]; [simpl; lia|].
    inversion Hs as [|? ? Hc Hrest]; subst.
    simpl in Hn.
    assert (Hr : length rest <= length (TextEncoder.encode rest) <= 3 * length rest)
      by (apply IH; [lia | assumption]).
    pose proof (length_utf8_of_code_point TextEncoder.replacement) as (_ & H3 & _).
    specialize (H3 ltac:(unfold TextEncoder.replacement; lia)).
    pose proof (length_utf8_of_code_point TextEncoder.replacement) as (H1 & _ & _).
    cbn [TextEncoder.encode].
    destruct (TextEncoder.is_high_surrogate c) eqn:Hh.
    + destruct rest as [|d rest'].
      * simpl. lia.
      * destruct (TextEncoder.is_low_surrogate d) eqn:Hl.
        -- inversion Hrest as [|? ? Hd Hrest']; subst.
           assert (Hr' : length rest' <= length (TextEncoder.encode rest')
                         <= 3 * length rest')
             by (apply IH; [simpl in Hn; lia | assumption]).
           unfold TextEncoder.is_high_surrogate in Hh.
           unfold TextEncoder.is_low_surrogate in Hl.
           apply andb_true_iff in Hh as [Hh1 _]. apply andb_true_iff in Hl as [Hl1 _].
           apply Z.leb_le in Hh1. apply Z.leb_le in Hl1.
           pose proof (length_utf8_of_code_point
                         (65536 + Z.shiftl (c - 55296) 10 + (d - 56320))%Z)
             as (_ & _ & H4).
           rewrite length_app, H4; [simpl; lia|].
           assert (0 <= Z.shiftl (c - 55296) 10)%Z by (apply Z.shiftl_nonneg; lia).
           lia.
        -- rewrite length_app.
           change (length (c :: d :: rest')) with (S (length (d :: rest'))). lia.
    + pose proof (length_utf8_of_code_point c) as (Hc1 & Hc3 & _).
      specialize (Hc3 ltac:(lia)).
      destruct (TextEncoder.is_low_surrogate c); rewrite length_app; simpl; lia.
Qed.

(** Zero padding cannot be confused with a key that has no zero byte. *)
Lemma padded_inj (k1 k2 : bytes) a b :
  Forall (fun x => x <> 0%Z) k1 -> Forall (fun x => x <> 0%Z) k2 ->
  k1 ++ replicate a 0%Z = k2 ++ replicate b 0%Z -> k1 = k2.
Proof.
  intros H1. revert k2. induction H1 as [|x k1 Hx _ IH]; intros k2 H2 Heq.
  - destruct H2 as [|y k2 Hy _]; [reflexivity|].
    destruct a; simpl in Heq; [discriminate|].
    injection Heq as Heq _. congruence.
  - destruct H2 as [|y k2 Hy H2].
    + destruct b; simpl in Heq; [discriminate|].
      injection Heq as Heq _. congruence.
    + simpl in Heq. injection Heq as -> Heq. f_equal. now apply IH.
Qed.

Lemma to_uint8_plain (k : jsstring) :
  Forall (fun c => 0 <= c < 256)%Z k -> map Uint8Array.to_uint8 k = k.
Proof.
  induction 1 as [|c k Hc _ IH]; [reflexivity|].
  simpl. rewrite IH. unfold Uint8Array.to_uint8. now rewrite Z.mod_small.
Qed.

(** X1: the constructor keeps every option it is given and fills each
    missing one with its default (localhost, 9055, 32, 1024), field by
    field; so a client built from the object a first constructor call has
    filled in is the same client, the argument [{}] gives the client of no
    argument at all, and every new client has a fresh socket with nothing
    written and no listener. *)
Theorem constructor_defaulting arg h p k v :
  Client.options
    (Client.new (Some {| opt_host := h; opt_port := p;
                         opt_maxKeySizeBytes := k; opt_maxValueSizeBytes := v |}))
  = {| host := match h with Some x => x | None => "localhost"%string end;
       port := match p with Some x => x | None => 9055%N end;
       maxKeySizeBytes := match k with Some x => x | None => 32 end;
       maxValueSizeBytes := match v with Some x => x | None => 1024 end |}
  /\ Client.new (Some (filled_argument (Client.options (Client.new arg)))) = Client.new arg
  /\ Client.new (Some empty_argument) = Client.new None
  /\ Client.socket (Client.new arg) = {| state := Fresh; written := []; waiters := [] |}.
Proof.
  split; [destruct h, p, k, v; reflexivity|].
  destruct arg as [[[h'|] [p'|] [k'|] [v'|]]|]; repeat split.
Qed.

Section FurtherProperties.
Variable cmds : Commands.
Variable number : Type.
Variable toString : number -> jsstring.
Variable encodeNumberToUint8Array : number -> bytes.

Local Abbreviation value := (Client.SerializableValue number).
Local Abbreviation request := (Client.Request number).
Local Abbreviation validateValue := (Client.validateValue number toString).
Local Abbreviation encode_value := (Client.encode_value number encodeNumberToUint8Array).
Local Abbreviation set := (Client.set cmds number toString encodeNumberToUint8Array).
Local Abbreviation call := (Client.call cmds number toString encodeNumberToUint8Array).
Local Abbreviation check := (request_check toString).
Local Abbreviation frame_of := (request_frame cmds encodeNumberToUint8Array).
Local Abbreviation K c := (maxKeySizeBytes (Client.options c)).
Local Abbreviation V c := (maxValueSizeBytes (Client.options c)).

Lemma validateValue_ok_iff (v : value) c :
  validateValue v c = (Ok tt, c)
  <-> too_long (V c) (checked_length toString v) = false.
Proof.
  rewrite validateValue_run.
  destruct (too_long _ _); split; intros H; try reflexivity; discriminate.
Qed.

(** A call that starts has written one frame and registered its listener. *)
Lemma call_started (r : request) c w c1 :
  call r c = (Ok w, c1) ->
  exists frame, frame_of (Client.options c) r = Ok frame
                /\ w = waiter_of r /\ c1 = sent c frame w.
Proof.
  rewrite call_run.
  destruct (check (Client.options c) r); [|discriminate].
  destruct (frame_of (Client.options c) r) as [frame|]; [|discriminate].
  intros [= <- <-]. eauto.
Qed.

(** X2: [ping] never throws, in any state of the client, and writes
    exactly the one command byte; the next chunk resolves it to [true]
    whatever the chunk contains, even nothing, after the operations that
    were already pending, and leaves no listener.  With nothing else
    pending, [true] is the only resolution. *)
Theorem ping_resolves_true c data :
  exists c1,
    Client.ping cmds c = (Ok WPing, c1)
    /\ written (Client.socket c1)
       = written (Client.socket c) ++ [[Uint8Array.to_uint8 (PING cmds)]]
    /\ waiters (Client.socket c1) = waiters (Client.socket c) ++ [WPing]
    /\ fst (Client.on_data data c1) = fst (Client.on_data data c) ++ [RBoolean true]
    /\ waiters (Client.socket (snd (Client.on_data data c1))) = []
    /\ (waiters (Client.socket c) = [] ->
        fst (Client.on_data data c1) = [RBoolean true]).
Proof.
  eexists. split; [reflexivity|]. simpl. rewrite map_app. simpl.
  repeat split. intros ->. reflexivity.
Qed.

(** X3: strictly sequential use is answered correctly.  When an operation
    is called on a client with nothing pending and does not throw, it has
    written exactly one frame; the next chunk resolves exactly that
    operation ([get] to the chunk's bytes unchanged), and afterwards nothing
    is pending again, with the options and the written frames untouched by
    the chunk. *)
Theorem request_response_cycle (r : request) c w c1 data :
  waiters (Client.socket c) = [] ->
  call r c = (Ok w, c1) ->
  exists frame,
    w = waiter_of r
    /\ written (Client.socket c1) = written (Client.socket c) ++ [frame]
    /\ fst (Client.on_data data c1) = [Client.resume w data]
    /\ (forall key, r = Client.ReqGet key ->
          fst (Client.on_data data c1) = [RResponse {| raw := data |}])
    /\ waiters (Client.socket (snd (Client.on_data data c1))) = []
    /\ written (Client.socket (snd (Client.on_data data c1)))
       = written (Client.socket c1)
    /\ Client.options (snd (Client.on_data data c1)) = Client.options c.
Proof.
  intros Hw Hcall. apply call_started in Hcall as (frame & _ & -> & ->).
  exists frame. simpl. rewrite Hw. simpl.
  repeat split. intros key ->. reflexivity.
Qed.

(** X4: two operations started back to back are both settled by the first
    chunk that arrives: the second operation is resolved from the response
    to the first, and no listener is left for its own response. *)
Theorem pipelined_requests_share_one_chunk (r1 r2 : request) c w1 c1 w2 c2 data :
  waiters (Client.socket c) = [] ->
  call r1 c = (Ok w1, c1) ->
  call r2 c1 = (Ok w2, c2) ->
  fst (Client.on_data data c2) = [Client.resume w1 data; Client.resume w2 data]
  /\ waiters (Client.socket (snd (Client.on_data data c2))) = [].
Proof.
  intros Hw H1 H2.
  apply call_started in H1 as (f1 & _ & -> & ->).
  apply call_started in H2 as (f2 & _ & -> & ->).
  simpl. rewrite Hw. auto.
Qed.

(** X5: [set] starts exactly when the key fits, the value passes its
    validation and the configured key size is at least 32; with a valid key
    and value and a smaller key size it always throws the RangeError of the
    fixed offset 33 and leaves the client unchanged. *)
Theorem set_succeeds_iff key (v : value) c :
  ((exists c', set key v c = (Ok WSet, c'))
   <-> length key <= K c /\ validateValue v c = (Ok tt, c) /\ 32 <= K c)
  /\ (length key <= K c -> validateValue v c = (Ok tt, c) -> K c < 32 ->
      set key v c = (Err RangeError, c)).
Proof.
  split; [split|].
  - intros [c' Hset].
    destruct (Nat.le_gt_cases (length key) (K c)) as [Hk|Hk].
    + destruct (too_long (V c) (checked_length toString v)) eqn:Hv.
      * change (call (Client.ReqSet key v) c = (Ok WSet, c')) in Hset.
        rewrite call_run in Hset. unfold request_check in Hset. simpl in Hset.
        apply Nat.ltb_ge in Hk. rewrite Hk, Hv in Hset. discriminate.
      * apply validateValue_ok_iff in Hv.
        destruct (Nat.le_gt_cases 32 (K c)) as [H32|H32]; [auto|].
        apply validateValue_ok_iff in Hv.
        rewrite set_small_key_region in Hset by assumption. discriminate.
    + change (call (Client.ReqSet key v) c = (Ok WSet, c')) in Hset.
      rewrite (key_too_long cmds number toString encodeNumberToUint8Array
                 key c (Client.ReqSet key v) eq_refl Hk) in Hset.
      discriminate.
  - intros (Hk & Hv & H32). apply validateValue_ok_iff in Hv.
    rewrite set_ok by assumption.
    cbv beta iota zeta delta [request_frame]. unfold Uint8Array.set.
    rewrite length_app, length_key_frame, length_replicate by assumption.
    destruct (Nat.ltb_spec (1 + K c + length (encode_value v))
                           (33 + length (encode_value v))); [lia | eauto].
  - intros Hk Hv H32. apply validateValue_ok_iff in Hv.
    now apply set_small_key_region.
Qed.

(** X6: when the configured key size is at least 32, the frame [set]
    writes has [1 + maxKeySizeBytes + value length] bytes, starts with the
    SET byte, and carries the encoded value at offset 33 whatever the key
    size; a key of at most 32 characters is intact at offset 1, and for the
    key size 32 the frame is the command byte, the padded key and the
    value, in this order. *)
Theorem set_frame_layout key (v : value) c :
  32 <= K c -> length key <= K c -> validateValue v c = (Ok tt, c) ->
  exists frame,
    set key v c = (Ok WSet, sent c frame WSet)
    /\ length frame = 1 + K c + length (encode_value v)
    /\ frame !! 0 = Some (Uint8Array.to_uint8 (SET cmds))
    /\ take (length (encode_value v)) (drop 33 frame) = encode_value v
    /\ (length key <= 32 ->
        take (length key) (drop 1 frame) = map Uint8Array.to_uint8 key)
    /\ (K c = 32 -> frame = key_frame (SET cmds) 32 key ++ encode_value v).
Proof.
  intros H32 Hk Hv. apply validateValue_ok_iff in Hv.
  rewrite set_ok by assumption.
  cbv beta iota zeta delta [request_frame]. unfold Uint8Array.set.
  set (val := encode_value v).
  set (T := key_frame (SET cmds) (K c) key ++ replicate (length val) 0%Z).
  assert (HT : length T = 1 + K c + length val).
  { unfold T. now rewrite length_app, length_key_frame, length_replicate. }
  rewrite HT.
  destruct (Nat.ltb_spec (1 + K c + length val) (33 + length val)); [lia|].
  assert (H33 : length (take 33 T) = 33) by (rewrite length_take; lia).
  eexists. split; [reflexivity|].
  split; [rewrite !length_app, H33, length_drop; lia|].
  split; [reflexivity|].
  split; [rewrite drop_app_length' by (now rewrite H33);
          now rewrite take_app_length'|].
  split.
  - intros Hk32. unfold T, key_frame.
    change (take 33 ((?x :: ?l) ++ ?l')) with (x :: take 32 (l ++ l')).
    cbn [app drop]. rewrite drop_0.
    rewrite take_app_le by (rewrite length_take, length_app, length_key_region; lia).
    rewrite take_take, Nat.min_l by assumption.
    unfold key_region. rewrite <- app_assoc.
    now rewrite take_app_length' by (now rewrite length_map).
  - intros HK. unfold T. rewrite HK in *.
    rewrite take_app_length' by (now rewrite length_key_frame).
    rewrite drop_ge, app_nil_r; [reflexivity|].
    rewrite length_app, length_key_frame, length_replicate by assumption. lia.
Qed.

(** X7: a string value that passes the validation is sent as at least
    [value.length] and at most three times [maxValueSizeBytes] bytes: the
    limit counts UTF-16 code units, each of which takes one to three bytes
    of UTF-8. *)
Theorem string_value_size_bounds (s : jsstring) c :
  code_units s ->
  validateValue (Client.VString s) c = (Ok tt, c) ->
  length s <= length (encode_value (Client.VString s)) <= 3 * V c.
Proof.
  intros Hs Hv. apply validateValue_ok_iff in Hv. simpl in Hv.
  apply Nat.ltb_ge in Hv.
  pose proof (length_encode_bounds (length s) s (le_n _) Hs). simpl. lia.
Qed.

Lemma sent_inj c f1 f2 w : sent c f1 w = sent c f2 w -> f1 = f2.
Proof.
  intros H. apply (f_equal (fun x => written (Client.socket x))) in H.
  simpl in H. apply app_inv_head in H. now injection H.
Qed.

(** X8: keys made of single non-zero bytes are sent unchanged and never
    confused: [serializeKey] returns the key itself, and two such keys that
    make [get] write the same frame are the same key. *)
Theorem plain_keys_are_distinguished k1 k2 c :
  plain_bytes k1 -> plain_bytes k2 ->
  length k1 <= K c -> length k2 <= K c ->
  Client.serializeKey k1 c = (Ok k1, c)
  /\ (Client.get cmds k1 c = Client.get cmds k2 c -> k1 = k2).
Proof.
  intros P1 P2 H1 H2.
  assert (B1 : map Uint8Array.to_uint8 k1 = k1)
    by (apply to_uint8_plain; eapply Forall_impl; [exact P1 | simpl; lia]).
  assert (B2 : map Uint8Array.to_uint8 k2 = k2)
    by (apply to_uint8_plain; eapply Forall_impl; [exact P2 | simpl; lia]).
  split; [now rewrite serializeKey_ok, B1|].
  rewrite !get_ok by assumption. intros Heq.
  apply (f_equal snd) in Heq. cbn [snd] in Heq. apply sent_inj in Heq.
  unfold key_frame, key_region in Heq. injection Heq as Heq.
  rewrite B1, B2 in Heq.
  eapply padded_inj; [| |exact Heq]; (eapply Forall_impl; [eassumption | simpl; lia]).
Qed.

Lemma to_uint8_zeros n :
  map Uint8Array.to_uint8 (replicate n 0%Z) = replicate n 0%Z.
Proof. induction n as [|n IH]; [reflexivity | simpl; now rewrite IH]. Qed.

Lemma key_region_collision max (k1 k2 : jsstring) :
  length k1 <= max -> length k2 <= max ->
  map Uint8Array.to_uint8 k1 = map Uint8Array.to_uint8 k2
  \/ (exists n, k2 = k1 ++ replicate n 0%Z) ->
  key_region max k1 = key_region max k2.
Proof.
  intros H1 H2 [Hm | [n ->]]; unfold key_region.
  - rewrite Hm. do 2 f_equal.
    apply (f_equal length) in Hm. rewrite !length_map in Hm. lia.
  - rewrite length_app, length_replicate in *.
    rewrite map_app, <- app_assoc. f_equal.
    rewrite to_uint8_zeros, <- replicate_add. f_equal. lia.
Qed.

(** X9: the one-byte-per-character key encoding loses information.  Two
    keys that fit the key size and whose characters agree modulo 256, or
    that differ only by trailing U+0000 characters, make every keyed
    operation behave identically: the same frame is written. *)
Theorem keys_collide_on_the_wire k1 k2 (v : value) c :
  length k1 <= K c -> length k2 <= K c ->
  map (fun code => (code mod 256)%Z) k1 = map (fun code => (code mod 256)%Z) k2
  \/ (exists n, k2 = k1 ++ replicate n 0%Z) ->
  Client.get cmds k1 c = Client.get cmds k2 c
  /\ set k1 v c = set k2 v c
  /\ Client.exists_ cmds k1 c = Client.exists_ cmds k2 c
  /\ Client.delete cmds k1 c = Client.delete cmds k2 c.
Proof.
  intros H1 H2 Hc.
  pose proof (key_region_collision (K c) k1 k2 H1 H2 Hc) as Hr.
  split; [|split; [|split]].
  - rewrite !get_ok by assumption. unfold key_frame. now rewrite Hr.
  - change (call (Client.ReqSet k1 v) c = call (Client.ReqSet k2 v) c).
    rewrite !call_run. unfold request_check, request_frame, key_frame. simpl.
    apply Nat.ltb_ge in H1. apply Nat.ltb_ge in H2. now rewrite H1, H2, Hr.
  - rewrite !exists_ok by assumption. unfold key_frame. now rewrite Hr.
  - rewrite !delete_ok by assumption. unfold key_frame. now rewrite Hr.
Qed.

(** X10: the key size limit is inclusive.  [get], [exists] and [delete]
    start exactly when the key has at most [maxKeySizeBytes] characters, and
    a key of exactly that many characters fills the key region with no
    padding. *)
Theorem key_size_boundary key c :
  ((exists c', Client.get cmds key c = (Ok WGet, c')) <-> length key <= K c)
  /\ ((exists c', Client.exists_ cmds key c = (Ok WExists, c')) <-> length key <= K c)
  /\ ((exists c', Client.delete cmds key c = (Ok WDelete, c')) <-> length key <= K c)
  /\ (length key = K c ->
      Client.get cmds key c
      = (Ok WGet,
         sent c (Uint8Array.to_uint8 (GET cmds) :: map Uint8Array.to_uint8 key) WGet)).
Proof.
  assert (Hrej : forall r : request, key_of r = Some key ->
            (exists c', call r c = (Ok (waiter_of r), c')) -> length key <= K c).
  { intros r Hr [c' Hc]. destruct (Nat.le_gt_cases (length key) (K c)) as [H|H]; [exact H|].
    rewrite (key_too_long cmds number toString encodeNumberToUint8Array key c r Hr H) in Hc.
    discriminate. }
  split; [|split; [|split]].
  - split; [apply (Hrej (Client.ReqGet key) eq_refl)|].
    intros H. rewrite get_ok by assumption. eauto.
  - split; [apply (Hrej (Client.ReqExists key) eq_refl)|].
    intros H. rewrite exists_ok by assumption. eauto.
  - split; [apply (Hrej (Client.ReqDelete key) eq_refl)|].
    intros H. rewrite delete_ok by assumption. eauto.
  - intros H. rewrite get_ok by lia. unfold key_frame, key_region.
    now rewrite H, Nat.sub_diag, app_nil_r.
Qed.

End FurtherProperties.

(** ** The further properties at concrete inputs *)

Lemma ping_resolves_true_witness :
  exists c1,
    Sample.ping Sample.client_default = (Ok WPing, c1)
    /\ written (Client.socket c1)
       = written (Client.socket Sample.client_default) ++ [[Uint8Array.to_uint8 0]]
    /\ fst (Client.on_data [] c1) = [RBoolean true]
    /\ waiters (Client.socket (snd (Client.on_data [] c1))) = [].
Proof.
  destruct (ping_resolves_true Sample.cmds Sample.client_default [])
    as (c1 & Hp & Hw & _ & _ & Hl & Hr).
  exists c1. split; [exact Hp|]. split; [exact Hw|].
  split; [apply Hr; reflexivity | exact Hl].
Defined.

Lemma request_response_cycle_witness :
  exists frame,
    WGet = waiter_of (Client.ReqGet (number := Z) (js "k"))
    /\ written (Client.socket (sent Sample.client_default (key_frame 1 32 (js "k")) WGet))
       = written (Client.socket Sample.client_default) ++ [frame]
    /\ fst (Client.on_data (js "hi")
              (sent Sample.client_default (key_frame 1 32 (js "k")) WGet))
       = [Client.resume WGet (js "hi")]
    /\ (forall key, Client.ReqGet (number := Z) (js "k") = Client.ReqGet key ->
          fst (Client.on_data (js "hi")
                 (sent Sample.client_default (key_frame 1 32 (js "k")) WGet))
          = [RResponse {| raw := js "hi" |}])
    /\ waiters (Client.socket
                  (snd (Client.on_data (js "hi")
                          (sent Sample.client_default (key_frame 1 32 (js "k")) WGet))))
       = []
    /\ written (Client.socket
                  (snd (Client.on_data (js "hi")
                          (sent Sample.client_default (key_frame 1 32 (js "k")) WGet))))
       = written (Client.socket (sent Sample.client_default (key_frame 1 32 (js "k")) WGet))
    /\ Client.options
         (snd (Client.on_data (js "hi")
                 (sent Sample.client_default (key_frame 1 32 (js "k")) WGet)))
       = Client.options Sample.client_default.
Proof.
  apply (request_response_cycle Sample.cmds Z Sample.toString
           Sample.encodeNumberToUint8Array (Client.ReqGet (js "k"))
           Sample.client_default WGet
           (sent Sample.client_default (key_frame 1 32 (js "k")) WGet) (js "hi"));
    reflexivity.
Defined.

Lemma pipelined_requests_share_one_chunk_witness :
  fst (Client.on_data [0%Z]
         (sent (sent Sample.client_default (key_frame 1 32 (js "a")) WGet)
               (key_frame 3 32 (js "b")) WExists))
  = [Client.resume WGet [0%Z]; Client.resume WExists [0%Z]]
  /\ waiters (Client.socket
                (snd (Client.on_data [0%Z]
                        (sent (sent Sample.client_default (key_frame 1 32 (js "a")) WGet)
                              (key_frame 3 32 (js "b")) WExists)))) = [].
Proof.
  apply (pipelined_requests_share_one_chunk Sample.cmds Z Sample.toString
           Sample.encodeNumberToUint8Array
           (Client.ReqGet (js "a")) (Client.ReqExists (js "b"))
           Sample.client_default
           WGet (sent Sample.client_default (key_frame 1 32 (js "a")) WGet)
           WExists); reflexivity.
Defined.

Lemma set_succeeds_iff_witness :
  (exists c', Sample.set (js "user1") (Client.VBoolean true) Sample.client40
              = (Ok WSet, c'))
  /\ Sample.set (js "user1") (Client.VBoolean true) Sample.client8
     = (Err RangeError, Sample.client8).
Proof.
  split.
  - apply (proj1 (set_succeeds_iff Sample.cmds Z Sample.toString
                    Sample.encodeNumberToUint8Array (js "user1")
                    (Client.VBoolean true) Sample.client40)).
    split; [simpl; lia | split; [reflexivity | simpl; lia]].
  - apply (proj2 (set_succeeds_iff Sample.cmds Z Sample.toString
                    Sample.encodeNumberToUint8Array (js "user1")
                    (Client.VBoolean true) Sample.client8));
      [simpl; lia | reflexivity | simpl; lia].
Defined.

Lemma set_frame_layout_witness :
  exists frame,
    Sample.set (js "user1") (Client.VString (js "abc")) Sample.client40
    = (Ok WSet, sent Sample.client40 frame WSet)
    /\ length frame = 1 + 40 + 3
    /\ frame !! 0 = Some (Uint8Array.to_uint8 2)
    /\ take 3 (drop 33 frame) = js "abc"
    /\ (5 <= 32 -> take 5 (drop 1 frame) = map Uint8Array.to_uint8 (js "user1"))
    /\ (40 = 32 -> frame = key_frame 2 32 (js "user1") ++ js "abc").
Proof.
  apply (set_frame_layout Sample.cmds Z Sample.toString
           Sample.encodeNumberToUint8Array (js "user1")
           (Client.VString (js "abc")) Sample.client40);
    [simpl; lia | simpl; lia | reflexivity].
Defined.

Lemma string_value_size_bounds_witness :
  1 <= length (TextEncoder.encode [8364%Z]) <= 3 * 1.
Proof.
  apply (string_value_size_bounds Z Sample.toString Sample.encodeNumberToUint8Array
           [8364%Z] Sample.client_v1);
    [unfold code_units; repeat constructor; lia | reflexivity].
Defined.

Lemma plain_keys_are_distinguished_witness :
  Client.serializeKey (js "user1") Sample.client8 = (Ok (js "user1"), Sample.client8)
  /\ (Sample.get (js "user1") Sample.client8 = Sample.get (js "user2") Sample.client8
      -> js "user1" = js "user2").
Proof.
  apply (plain_keys_are_distinguished Sample.cmds (js "user1") (js "user2")
           Sample.client8);
    [unfold plain_bytes; repeat constructor; vm_compute; discriminate
    |unfold plain_bytes; repeat constructor; vm_compute; discriminate
    |simpl; lia | simpl; lia].
Defined.

Lemma keys_collide_on_the_wire_witness :
  Sample.get [97%Z] Sample.client_default = Sample.get [353%Z] Sample.client_default
  /\ Sample.set [97%Z] (Client.VBoolean true) Sample.client_default
     = Sample.set [353%Z] (Client.VBoolean true) Sample.client_default
  /\ Sample.exists_ [97%Z] Sample.client_default
     = Sample.exists_ [353%Z] Sample.client_default
  /\ Sample.delete [97%Z] Sample.client_default
     = Sample.delete [353%Z] Sample.client_default.
Proof.
  apply (keys_collide_on_the_wire Sample.cmds Z Sample.toString
           Sample.encodeNumberToUint8Array [97%Z] [353%Z] (Client.VBoolean true)
           Sample.client_default);
    [simpl; lia | simpl; lia | left; reflexivity].
Defined.

Lemma key_size_boundary_witness :
  Sample.get (js "12345678") Sample.client8
  = (Ok WGet,
     sent Sample.client8
          (Uint8Array.to_uint8 1 :: map Uint8Array.to_uint8 (js "12345678")) WGet)
  /\ exists c', Sample.exists_ (js "12345678") Sample.client8 = (Ok WExists, c').
Proof.
  pose proof (key_size_boundary Sample.cmds Z Sample.toString
                Sample.encodeNumberToUint8Array (js "12345678") Sample.client8)
    as (_ & He & _ & Hb).
  split; [apply Hb; reflexivity | apply (proj2 He); simpl; lia].
Defined.
